(** * The dynamic record of the empty-interface snippets

    The snippets [05/main.go] and [07/main.go] keep a person in a
    [map[string]interface{}], narrow the field ["age"] back to [int] with a
    comma-ok type assertion, stop with [log.Fatal] when the assertion fails,
    and otherwise write [age + 1] back under the same key.

    This file embeds those statements: interface values with their dynamic
    type, the map, the type assertion, and the statements of [main] in a
    small state-and-exit monad whose state is the map together with what the
    program has written so far. *)

From Stdlib Require Import ZArith String List.
From Stdlib Require Import PrimFloat.
From stdpp Require Import gmap strings pretty.

Local Open Scope Z_scope.
Local Open Scope string_scope.

(** ** Values *)

Module Go.

(** The concrete types the snippets store behind [interface{}]:
    ["Alice"] is a [string], [21] an [int], [167.64] a [float64]. *)
Inductive TypeTag : Type := TInt | TString | TFloat64.

#[global] Instance TypeTag_eq_dec : EqDecision TypeTag.
Proof. solve_decision. Defined.

(** The Go type a tag stands for. [int] is the 64-bit signed integer of the
    usual platforms, carried as a [Z]; [float64] is a binary64. *)
Definition goType (T : TypeTag) : Type :=
  match T with
  | TInt => Z
  | TString => string
  | TFloat64 => float
  end.

(** The zero value of a type, which a failed comma-ok assertion returns. *)
Definition zero (T : TypeTag) : goType T :=
  match T with
  | TInt => 0
  | TString => ""
  | TFloat64 => 0%float
  end.

(** A value of type [interface{}]: [nil], or a concrete value that carries
    its dynamic type. *)
Inductive iface : Type :=
  | nil
  | VInt (n : Z)
  | VString (s : string)
  | VFloat64 (f : float).

(** Conversion of a concrete value to [interface{}], as done implicitly by
    the assignments [person["age"] = 21]. *)
Definition box (T : TypeTag) : goType T -> iface :=
  match T with
  | TInt => VInt
  | TString => VString
  | TFloat64 => VFloat64
  end.

(** The dynamic type of an interface value; [nil] has none. *)
Definition dynType (x : iface) : option TypeTag :=
  match x with
  | nil => None
  | VInt _ => Some TInt
  | VString _ => Some TString
  | VFloat64 _ => Some TFloat64
  end.

(** [v, ok := x.(T)]: the comma-ok type assertion. It never panics; when
    the dynamic type of [x] is not [T] (in particular when [x] is [nil]) it
    gives the zero value of [T] and [false]. *)
Definition assertType (T : TypeTag) (x : iface) : goType T * bool :=
  match T return goType T * bool with
  | TInt => match x with VInt n => (n, true) | _ => (0, false) end
  | TString => match x with VString s => (s, true) | _ => ("", false) end
  | TFloat64 => match x with VFloat64 f => (f, true) | _ => (0%float, false) end
  end.

(** Arithmetic on [int] wraps around at 64 bits. *)
Definition intSize : Z := 64.

Definition wrapInt (x : Z) : Z :=
  (x + 2 ^ (intSize - 1)) mod 2 ^ intSize - 2 ^ (intSize - 1).

Definition intAdd (a b : Z) : Z := wrapInt (a + b).

End Go.

Import Go.

(** ** The record *)

(** [map[string]interface{}]. A key may be bound to [nil]; an absent key is
    not the same as a key bound to [nil], although indexing cannot tell. *)
Abbreviation record := (gmap string iface).

(** [make(map[string]interface{}, 0)] *)
Definition make : record := ∅.

(** [person[key]] as an expression: the element, or the zero value of the
    element type, [nil], when the key is absent. *)
Definition index (m : record) (key : string) : iface :=
  match m !! key with
  | Some x => x
  | None => nil
  end.

(** [person[key] = value] *)
Definition set (m : record) (key : string) (value : iface) : record :=
  <[key := value]> m.

(** [person[key].(T)] with the comma-ok form, lines 23 of [05/main.go] and
    12 of [07/main.go] (there with ["age"] and [int]). *)
Definition getTyped (m : record) (key : string) (T : TypeTag)
  : goType T * bool :=
  assertType T (index m key).

(** ** The program state and its statements *)

(** What the program writes. [log.Fatal] and [log.Printf] write a line to
    standard error, [fmt.Printf] writes to standard output; the text of a
    printed map is produced by the [fmt] package from the map it is given,
    so a print is recorded with its format and the map at that moment. *)
Inductive output : Type :=
  | LogFatal (msg : string)
  | LogPrintf (format : string) (arg : record)
  | FmtPrintf (format : string) (arg : record).

(** The local variable [person] of [main] and the output so far. *)
Record machine : Type := Machine {
  person : record;
  written : list output
}.

(** A statement either completes with a value or ends the process with an
    exit status ([log.Fatal] calls [os.Exit(1)]). *)
Inductive result (A : Type) : Type :=
  | Ret (a : A)
  | Exit (code : Z).

Arguments Ret {A} a.
Arguments Exit {A} code.

Definition M (A : Type) : Type := machine -> result A * machine.

Definition ret {A : Type} (a : A) : M A := fun st => (Ret a, st).

Definition bind {A B : Type} (c : M A) (k : A -> M B) : M B :=
  fun st =>
    match c st with
    | (Ret a, st') => k a st'
    | (Exit code, st') => (Exit code, st')
    end.

Declare Scope go_scope.
Delimit Scope go_scope with go.
Notation "x <- c ;; k" := (bind c (fun x => k))
  (at level 100, c at next level, right associativity) : go_scope.
Notation "c ;; k" := (bind c (fun _ => k))
  (at level 100, k at level 200, right associativity) : go_scope.
Local Open Scope go_scope.

Definition write (o : output) (st : machine) : machine :=
  {| person := person st; written := written st ++ [o] |}.

(** [person := make(map[string]interface{}, 0)] *)
Definition declare : M unit :=
  fun st => (Ret tt, {| person := make; written := written st |}).

(** [person[key] = value] *)
Definition assign (key : string) (value : iface) : M unit :=
  fun st => (Ret tt, {| person := set (person st) key value;
                        written := written st |}).

(** [person[key].(T)], comma-ok *)
Definition typeAssert (T : TypeTag) (key : string) : M (goType T * bool) :=
  fun st => (Ret (getTyped (person st) key T), st).

(** [log.Fatal(msg)]: the message, then [os.Exit(1)]. Nothing after it in
    the function runs, the [return] that follows it in the source included. *)
Definition logFatal {A : Type} (msg : string) : M A :=
  fun st => (Exit 1, write (LogFatal msg) st).

(** [log.Printf(format, person)] *)
Definition logPrintf (format : string) : M unit :=
  fun st => (Ret tt, write (LogPrintf format (person st)) st).

(** [fmt.Printf(format, person)] *)
Definition fmtPrintf (format : string) : M unit :=
  fun st => (Ret tt, write (FmtPrintf format (person st)) st).

(** Lines 23-27 of [05/main.go] and 12-16 of [07/main.go], for any key:
<<
    age, ok := person[key].(int)
    if !ok {
        log.Fatal("could not assert value to int")
        return
    }
>>
    What follows the block runs with [age] bound. *)
Definition narrowInt (key : string) : M Z :=
  r <- typeAssert TInt key ;;
  if negb (snd r) then logFatal "could not assert value to int"
  else ret (fst r).

(** Lines 23-29 of [05/main.go] and 12-18 of [07/main.go], for any key:
    the narrowing block, then [person[key] = age + 1]. *)
Definition incrementIntField (key : string) : M unit :=
  age <- narrowInt key ;;
  assign key (VInt (intAdd age 1)).

(** The constant [167.64] of the snippets, converted to [float64] (rounded
    to the nearest binary64) when it is stored in the map. *)
Definition height : float := 0x1.4f47ae147ae14p+7%float.

(** Lines 6-10 of [07/main.go] (10-14 of [05/main.go]). *)
Definition initPerson : M unit :=
  declare ;;
  assign "name" (box TString "Alice") ;;
  assign "age" (box TInt 21) ;;
  assign "height" (box TFloat64 height).

(** [main] of [05/main.go] *)
Definition main05 : M unit :=
  declare ;;
  assign "name" (box TString "Alice") ;;
  assign "age" (box TInt 21) ;;
  assign "height" (box TFloat64 height) ;;
  r <- typeAssert TInt "age" ;;
  if negb (snd r) then logFatal "could not assert value to int"
  else
    assign "age" (VInt (intAdd (fst r) 1)) ;;
    fmtPrintf "%+v".

(** [main] of [07/main.go] *)
Definition main07 : M unit :=
  declare ;;
  assign "name" (box TString "Alice") ;;
  assign "age" (box TInt 21) ;;
  assign "height" (box TFloat64 height) ;;
  r <- typeAssert TInt "age" ;;
  if negb (snd r) then logFatal "could not assert value to int"
  else
    assign "age" (VInt (intAdd (fst r) 1)) ;;
    logPrintf "%+v".

(** The process starts with nothing written; [person] is not yet declared. *)
Definition start : machine := {| person := ∅; written := [] |}.

(** What can be seen from outside the process: how it ended and what it
    wrote. *)
Definition observe {A : Type} (r : result A * machine) : result A * list output :=
  (fst r, written (snd r)).

(** The example record of the snippets, after line 10 of [07/main.go]. *)
Definition alice : record :=
  set (set (set make "name" (VString "Alice")) "age" (VInt 21))
      "height" (VFloat64 height).

(** The outcome classes the specification names for a failed field update.
    The program has no such type: its one failure is the fatal of the
    narrowing block. *)
Inductive FieldError : Type := Missing | TypeMismatch.

(** Any run of assignments like lines 8-10, from the oldest to the newest. *)
Definition assignAll (kvs : list (string * iface)) (m : record) : record :=
  fold_left (fun m kv => set m (fst kv) (snd kv)) kvs m.

(** The least and the greatest [int]. *)
Definition minInt : Z := - 2 ^ (intSize - 1).
Definition maxInt : Z := 2 ^ (intSize - 1) - 1.

(** Every [int] the record holds is a value an [int] can hold. *)
Definition intsInRange (m : record) : Prop :=
  forall (k : string) (n : Z), m !! k = Some (VInt n) -> minInt <= n <= maxInt.

(** ** The [Stringer] snippet, [01/main.go] *)

Module Stringers.

(** [type Stringer interface { String() string }]. The method is called
    [stringOf] here, [String] being the constructor of Rocq's strings. *)
Class Stringer (A : Type) : Type := stringOf : A -> string.

Record Book : Type := { Title : string; Author : string }.

(** [fmt.Sprintf("Book: %s - %s", b.Title, b.Author)]: with string operands
    [%s] is the operand itself. *)
Definition Book_String (b : Book) : string :=
  "Book: " ++ Title b ++ " - " ++ Author b.

#[global] Instance Book_Stringer : Stringer Book := Book_String.

(** [type Count int] *)
Definition Count : Type := Z.

(** [strconv.Itoa]: the decimal digits, after a minus sign when negative. *)
Definition Itoa (i : Z) : string := pretty i.

Definition Count_String (c : Count) : string := Itoa c.

#[global] Instance Count_Stringer : Stringer Count := Count_String.

(** [func WriteLog(s fmt.Stringer) { log.Print(s.String()) }], on the lines
    logged so far (each without the date and time the logger puts first). *)
Definition WriteLog {A : Type} `{Stringer A} (s : A) (logged : list string)
  : list string :=
  (logged ++ [stringOf s])%list.

Definition main (logged : list string) : list string :=
  let book := {| Title := "Alice in Wonderland"; Author := "Lewis Carrol" |} in
  let logged := WriteLog book logged in
  let count : Count := 3 in
  WriteLog count logged.

End Stringers.

(** ** The sales-rate snippet, [03/main.go] *)

Module Shop.

(** What the snippet takes from outside itself: instants and [Add] of
    package [time] (a duration is a number of nanoseconds), the non-nil
    errors, the database behind [*sql.DB] with what
    [QueryRow(query, since).Scan(&count)] leaves in [count], returns and does
    to the database, the conversion [float64(n)] and
    [fmt.Sprintf("%.2f", rate)]. *)
Class World : Type := {
  Time : Type;
  Add : Time -> Z -> Time;
  error : Type;
  DB : Type;
  QueryRowScan : string -> Time -> DB -> (Z * option error) * DB;
  float64 : Z -> float;
  Sprintf_2f : float -> string
}.

(** [time.Hour] *)
Definition Hour : Z := 60 * (60 * (1000 * (1000 * 1000))).

Section Methods.

Context `{World}.

Definition CountCustomers (since : Time) (sdb : DB) : (Z * option error) * DB :=
  QueryRowScan "SELECT count(*) FROM customers WHERE timestamp > $1" since sdb.

Definition CountSales (since : Time) (sdb : DB) : (Z * option error) * DB :=
  QueryRowScan "SELECT count(*) FROM sales WHERE timestamp > $1" since sdb.

(** [calculateSalesRate], given what [time.Now()] reads. It returns the
    string, the error ([None] for [nil]) and the database afterwards. *)
Definition calculateSalesRate (now : Time) (sdb : DB)
  : (string * option error) * DB :=
  let since := Add now (-24 * Hour) in
  let '((sales, err), sdb1) := CountSales since sdb in
  match err with
  | Some e => (("", Some e), sdb1)
  | None =>
      let '((customers, err), sdb2) := CountCustomers since sdb1 in
      match err with
      | Some e => (("", Some e), sdb2)
      | None =>
          let rate := (float64 sales / float64 customers)%float in
          ((Sprintf_2f rate, None), sdb2)
      end
  end.

End Methods.

(** A double for the database, of the kind the closing comment of the
    snippet asks for. Instants are nanoseconds, the database is the list of
    the queries asked of it so far, every count is 0, and the query [failing]
    is answered with an error. [float64(0)] is [0] and [0 / 0], not a number,
    is formatted as ["NaN"]. *)
Definition double (failing : string) : World := {|
  Time := Z;
  Add := Z.add;
  error := string;
  DB := list string;
  QueryRowScan := fun query since asked =>
    ((0, if String.eqb query failing then Some "connection refused" else None),
     (asked ++ [query])%list);
  float64 := fun _ => 0%float;
  Sprintf_2f := fun _ => "NaN"
|}.

End Shop.

(** ** The snippets themselves *)

Example main07_runs :
  main07 start =
  (Ret tt,
   let p := set alice "age" (VInt 22) in
   {| person := p; written := [LogPrintf "%+v" p] |}).
Proof. vm_compute. reflexivity. Qed.

Example main05_runs :
  main05 start =
  (Ret tt,
   let p := set alice "age" (VInt 22) in
   {| person := p; written := [FmtPrintf "%+v" p] |}).
Proof. vm_compute. reflexivity. Qed.

(** [main] is the three assignments, the field update on ["age"], and the
    print. *)
Lemma main07_unfold (st : machine) :
  main07 st = (initPerson ;; incrementIntField "age" ;; logPrintf "%+v") st.
Proof. reflexivity. Qed.

Lemma main05_unfold (st : machine) :
  main05 st = (initPerson ;; incrementIntField "age" ;; fmtPrintf "%+v") st.
Proof. reflexivity. Qed.

Lemma initPerson_alice (st : machine) :
  initPerson st = (Ret tt, {| person := alice; written := written st |}).
Proof. reflexivity. Qed.

(** ** Reading a field *)

Section Reading.

Variable m : record.
Variable key : string.

Lemma index_present (x : iface) : m !! key = Some x -> index m key = x.
Proof. unfold index. intros ->. reflexivity. Qed.

Lemma index_absent : m !! key = None -> index m key = nil.
Proof. unfold index. intros ->. reflexivity. Qed.

Lemma index_set (x : iface) : index (set m key x) key = x.
Proof. unfold index, set. rewrite lookup_insert_eq. reflexivity. Qed.

Lemma assertType_box (T : TypeTag) (v : goType T) :
  assertType T (box T v) = (v, true).
Proof. destruct T; reflexivity. Qed.

Lemma dynType_box (T : TypeTag) (v : goType T) : dynType (box T v) = Some T.
Proof. destruct T; reflexivity. Qed.

Lemma assertType_nil (T : TypeTag) : assertType T nil = (zero T, false).
Proof. destruct T; reflexivity. Qed.

Lemma assertType_other (T : TypeTag) (x : iface) :
  dynType x <> Some T -> assertType T x = (zero T, false).
Proof. destruct T, x; simpl; intros H; try reflexivity; congruence. Qed.

Lemma assertType_ok (T : TypeTag) (x : iface) :
  snd (assertType T x) = true <-> dynType x = Some T.
Proof. destruct T, x; simpl; split; congruence. Qed.

Lemma assertType_int_ok (x : iface) :
  snd (assertType TInt x) = true -> x = VInt (fst (assertType TInt x)).
Proof. destruct x; simpl; congruence. Qed.

Lemma getTyped_None (T : TypeTag) :
  m !! key = None -> getTyped m key T = (zero T, false).
Proof.
  intros H. unfold getTyped. rewrite (index_absent H). apply assertType_nil.
Qed.

Lemma getTyped_mismatch (T : TypeTag) (x : iface) :
  m !! key = Some x -> dynType x <> Some T ->
  getTyped m key T = (zero T, false).
Proof.
  intros H Hx. unfold getTyped. rewrite (index_present x H).
  apply (assertType_other T x Hx).
Qed.

(** A key bound to [nil] reads like an absent one. *)
Lemma getTyped_set_nil (T : TypeTag) :
  getTyped (set m key nil) key T = (zero T, false).
Proof. unfold getTyped. rewrite index_set. apply assertType_nil. Qed.

Lemma getTyped_fail_zero (T : TypeTag) :
  snd (getTyped m key T) = false -> getTyped m key T = (zero T, false).
Proof.
  unfold getTyped. destruct T, (index m key); simpl; congruence.
Qed.

End Reading.

(** ** Running the field update *)

Section Running.

Variable st : machine.
Variable key : string.

Lemma narrowInt_fail :
  snd (getTyped (person st) key TInt) = false ->
  narrowInt key st = (Exit 1, write (LogFatal "could not assert value to int") st).
Proof.
  intros H. unfold narrowInt, bind, typeAssert. rewrite H. reflexivity.
Qed.

Lemma narrowInt_ok (n : Z) :
  person st !! key = Some (VInt n) -> narrowInt key st = (Ret n, st).
Proof.
  intros H. unfold narrowInt, bind, typeAssert, getTyped.
  rewrite (index_present _ _ _ H). reflexivity.
Qed.

Lemma incrementIntField_fail :
  snd (getTyped (person st) key TInt) = false ->
  incrementIntField key st =
  (Exit 1, write (LogFatal "could not assert value to int") st).
Proof.
  intros H. unfold incrementIntField, bind. rewrite (narrowInt_fail H).
  reflexivity.
Qed.

Lemma incrementIntField_ok (n : Z) :
  person st !! key = Some (VInt n) ->
  incrementIntField key st =
  (Ret tt, {| person := set (person st) key (VInt (intAdd n 1));
              written := written st |}).
Proof.
  intros H. unfold incrementIntField, bind. rewrite (narrowInt_ok _ H).
  reflexivity.
Qed.

(** The two ways the update can go, told apart by the narrowing alone. *)
Lemma incrementIntField_cases :
  (exists n, person st !! key = Some (VInt n) /\
             snd (getTyped (person st) key TInt) = true)
  \/ ((forall n, person st !! key <> Some (VInt n)) /\
      snd (getTyped (person st) key TInt) = false).
Proof.
  unfold getTyped, index.
  destruct (person st !! key) as [[ | n | s | f] | ]; simpl;
    first [ left; eexists; split; reflexivity
          | right; split; [intros n'; congruence | reflexivity] ].
Qed.

End Running.

(** ** Properties of the record operations *)

(** C1. On every record that binds ["age"] to the integer 21, the field
    update on ["age"] completes, the record then binds ["age"] to the
    integer 22, and every other key is bound as before (nothing is written
    to the output either). *)
Theorem incrementIntField_age_21 (st : machine) :
  person st !! "age" = Some (VInt 21) ->
  incrementIntField "age" st =
    (Ret tt, {| person := set (person st) "age" (VInt 22);
                written := written st |})
  /\ person (snd (incrementIntField "age" st)) !! "age" = Some (VInt 22)
  /\ (forall k : string, k <> "age" ->
        person (snd (incrementIntField "age" st)) !! k = person st !! k).
Proof.
  intros H. rewrite (incrementIntField_ok st "age" 21 H).
  change (intAdd 21 1) with 22. simpl. unfold set.
  split; [reflexivity | split].
  - apply lookup_insert_eq.
  - intros k Hk. apply lookup_insert_ne. congruence.
Qed.

(** The example record [{name:"Alice", age:21, height:167.64}]. *)
Lemma incrementIntField_age_21_alice :
  person (Machine alice []) !! "age" = Some (VInt 21)
  /\ incrementIntField "age" (Machine alice []) =
       (Ret tt, {| person := set alice "age" (VInt 22); written := [] |})
  /\ person (snd (incrementIntField "age" (Machine alice []))) !! "age"
       = Some (VInt 22)
  /\ (forall k : string, k <> "age" ->
        person (snd (incrementIntField "age" (Machine alice []))) !! k
        = alice !! k).
Proof.
  split; [reflexivity |].
  apply (incrementIntField_age_21 (Machine alice [])). reflexivity.
Defined.

(** C2. For every key [k], every type [T] and every value [v] of type [T]:
    after [person[k] = v] on any record, [person[k].(T)] gives [(v, true)].
    The same holds for the two statements run one after the other. *)
Theorem set_getTyped (m : record) (k : string) (T : TypeTag) (v : goType T) :
  getTyped (set m k (box T v)) k T = (v, true)
  /\ forall st : machine,
       fst ((assign k (box T v) ;; typeAssert T k) st) = Ret (v, true).
Proof.
  assert (E : forall m', getTyped (set m' k (box T v)) k T = (v, true)).
  { intros m'. unfold getTyped. rewrite index_set. apply assertType_box. }
  split; [apply E |].
  intros st. unfold bind, assign, typeAssert. simpl. rewrite E. reflexivity.
Qed.

(** C3. On every record in which the key holds a string, the field update
    fails with the type-assertion failure: the process ends with status 1
    after the fatal line "could not assert value to int", and the record is
    the one before the call, no field having been written. *)
Theorem incrementIntField_string (st : machine) (key s : string) :
  person st !! key = Some (VString s) ->
  incrementIntField key st =
    (Exit 1, write (LogFatal "could not assert value to int") st)
  /\ person (snd (incrementIntField key st)) = person st.
Proof.
  intros H.
  assert (F : snd (getTyped (person st) key TInt) = false).
  { rewrite (getTyped_mismatch _ _ TInt (VString s) H); [reflexivity |].
    discriminate. }
  rewrite (incrementIntField_fail st key F). split; reflexivity.
Qed.

(** The record [{"age": "21"}]. *)
Lemma incrementIntField_string_age :
  person (Machine {[ "age" := VString "21" ]} []) !! "age"
    = Some (VString "21")
  /\ incrementIntField "age" (Machine {[ "age" := VString "21" ]} []) =
       (Exit 1, Machine {[ "age" := VString "21" ]}
                        [LogFatal "could not assert value to int"])
  /\ person (snd (incrementIntField "age"
                    (Machine {[ "age" := VString "21" ]} [])))
     = {[ "age" := VString "21" ]}.
Proof.
  split; [reflexivity |].
  exact (incrementIntField_string (Machine {[ "age" := VString "21" ]} [])
           "age" "21" eq_refl).
Defined.

(** C4, as the program has it. On every record with no binding for the key,
    the field update fails and leaves the record as it was; the failure is
    the same fatal line and exit status as for a key that holds a string,
    and nothing the process shows tells the two apart. *)
Theorem incrementIntField_absent (st : machine) (key : string) :
  person st !! key = None ->
  incrementIntField key st =
    (Exit 1, write (LogFatal "could not assert value to int") st)
  /\ person (snd (incrementIntField key st)) = person st
  /\ (forall s : string,
        observe (incrementIntField key st) =
        observe (incrementIntField key
                   (Machine (set (person st) key (VString s)) (written st)))).
Proof.
  intros H.
  assert (F : snd (getTyped (person st) key TInt) = false)
    by (rewrite (getTyped_None _ _ TInt H); reflexivity).
  rewrite (incrementIntField_fail st key F).
  split; [reflexivity | split; [reflexivity |]].
  intros s.
  rewrite (incrementIntField_fail
             (Machine (set (person st) key (VString s)) (written st)) key).
  - reflexivity.
  - cbn [person].
    rewrite (getTyped_mismatch (set (person st) key (VString s)) key
               TInt (VString s)).
    + reflexivity.
    + unfold set. apply lookup_insert_eq.
    + discriminate.
Qed.

(** The empty record and the key ["age"]. *)
Lemma incrementIntField_absent_age :
  person start !! "age" = None
  /\ incrementIntField "age" start =
       (Exit 1, Machine ∅ [LogFatal "could not assert value to int"])
  /\ person (snd (incrementIntField "age" start)) = ∅
  /\ (forall s : string,
        observe (incrementIntField "age" start) =
        observe (incrementIntField "age"
                   (Machine (set ∅ "age" (VString s)) []))).
Proof.
  split; [reflexivity |].
  exact (incrementIntField_absent start "age" eq_refl).
Defined.

(** C4, as stated, fails: were the absent key reported as [Missing] and the
    string-valued key as [TypeMismatch], what the process shows would tell
    the two apart. On the empty record and on [{"age": "21"}] it shows the
    same thing. *)
Lemma missing_is_not_reported :
  ~ exists classify : result unit * list output -> FieldError,
      classify (observe (incrementIntField "age" (Machine ∅ []))) = Missing
      /\ classify (observe (incrementIntField "age"
                              (Machine {[ "age" := VString "21" ]} [])))
         = TypeMismatch.
Proof.
  intros [classify [H1 H2]].
  assert (E : observe (incrementIntField "age" (Machine ∅ [])) =
              observe (incrementIntField "age"
                         (Machine {[ "age" := VString "21" ]} [])))
    by reflexivity.
  rewrite E in H1. congruence.
Qed.

(** C5. When the key holds a value of dynamic type [T1] and [T2] is another
    type, [person[k].(T2)] gives [ok = false] together with the zero value
    of [T2], never the stored value; the statement completes (the process
    does not end) and changes nothing. *)
Theorem getTyped_other_type
    (m : record) (k : string) (x : iface) (T1 T2 : TypeTag) :
  m !! k = Some x -> dynType x = Some T1 -> T2 <> T1 ->
  getTyped m k T2 = (zero T2, false)
  /\ forall w : list output,
       typeAssert T2 k (Machine m w) = (Ret (zero T2, false), Machine m w).
Proof.
  intros Hk HT Hne.
  assert (E : getTyped m k T2 = (zero T2, false)).
  { apply (getTyped_mismatch _ _ T2 x Hk). rewrite HT. congruence. }
  split; [exact E |].
  intros w. unfold typeAssert. simpl. rewrite E. reflexivity.
Qed.

(** ["age"] holds an [int]; it is read as a [string]. *)
Lemma getTyped_other_type_age :
  alice !! "age" = Some (VInt 21) /\ dynType (VInt 21) = Some TInt
  /\ TString <> TInt
  /\ getTyped alice "age" TString = ("", false)
  /\ forall w : list output,
       typeAssert TString "age" (Machine alice w)
       = (Ret ("", false), Machine alice w).
Proof.
  split; [reflexivity | split; [reflexivity | split; [discriminate |]]].
  apply (getTyped_other_type alice "age" (VInt 21) TInt TString);
    [reflexivity | reflexivity | discriminate].
Defined.

(** C6. For a key with no binding in the record, and any type [T],
    [person[k].(T)] gives [ok = false] (with the zero value of [T]). *)
Theorem getTyped_absent (m : record) (k : string) (T : TypeTag) :
  m !! k = None -> getTyped m k T = (zero T, false).
Proof.
  intros H. apply (getTyped_None m k T H).
Qed.

Lemma getTyped_absent_age :
  make !! "age" = None /\ getTyped make "age" TInt = (0, false).
Proof.
  split; [reflexivity | apply (getTyped_absent make "age" TInt); reflexivity].
Defined.

(** A key that no assignment named has no binding, so C6 covers it. *)
Lemma assignAll_other (kvs : list (string * iface)) (m : record) (k : string) :
  k ∉ map fst kvs -> assignAll kvs m !! k = m !! k.
Proof.
  revert m. induction kvs as [ | [k' v] kvs IH]; intros m Hk; simpl.
  - reflexivity.
  - simpl in Hk. apply not_elem_of_cons in Hk as [Hne Hk].
    unfold assignAll in *. simpl. rewrite (IH _ Hk). unfold set.
    apply lookup_insert_ne. congruence.
Qed.

Lemma getTyped_never_assigned
    (kvs : list (string * iface)) (k : string) (T : TypeTag) :
  k ∉ map fst kvs -> getTyped (assignAll kvs make) k T = (zero T, false).
Proof.
  intros Hk. apply getTyped_None. rewrite (assignAll_other _ _ _ Hk).
  apply lookup_empty.
Qed.

(** C7. When the narrowing of the field update fails (absent key, [nil], or
    a value that is not an [int]), the process ends in the narrowing block:
    whatever statements follow the block, the addition and the write of the
    field update among them, the run is the fatal line and exit status 1,
    with the record as it was. Nothing after the block is reached. *)
Theorem narrowing_failure_aborts (st : machine) (key : string) :
  snd (getTyped (person st) key TInt) = false ->
  (forall (A : Type) (rest : Z -> M A),
     (age <- narrowInt key ;; rest age) st =
     (Exit 1, write (LogFatal "could not assert value to int") st))
  /\ incrementIntField key st =
     (Exit 1, write (LogFatal "could not assert value to int") st)
  /\ person (snd (incrementIntField key st)) = person st.
Proof.
  intros F. split; [| split].
  - intros A rest. unfold bind at 1. rewrite (narrowInt_fail st key F).
    reflexivity.
  - apply (incrementIntField_fail st key F).
  - rewrite (incrementIntField_fail st key F). reflexivity.
Qed.

(** A record whose ["age"] is the string ["21"]. *)
Lemma narrowing_failure_aborts_age :
  let st := Machine {[ "age" := VString "21" ]} [] in
  snd (getTyped (person st) "age" TInt) = false
  /\ (forall (A : Type) (rest : Z -> M A),
        (age <- narrowInt "age" ;; rest age) st =
        (Exit 1, write (LogFatal "could not assert value to int") st))
  /\ incrementIntField "age" st =
     (Exit 1, write (LogFatal "could not assert value to int") st)
  /\ person (snd (incrementIntField "age" st)) = person st.
Proof.
  intros st. split; [reflexivity |].
  apply (narrowing_failure_aborts st "age"). reflexivity.
Defined.

(** C9. An assertion to [int] on an absent key and one on a key that holds
    a value of another type (or [nil]) both give [(0, false)], and the field
    update then fails in the same way: from equal output so far, the two
    processes end with the same status and the same output, whose last line
    is the fatal "could not assert value to int". *)
Theorem failure_causes_indistinguishable
    (st1 st2 : machine) (key : string) (x : iface) :
  person st1 !! key = None ->
  person st2 !! key = Some x ->
  dynType x <> Some TInt ->
  written st1 = written st2 ->
  getTyped (person st1) key TInt = (0, false)
  /\ getTyped (person st2) key TInt = (0, false)
  /\ observe (incrementIntField key st1) = observe (incrementIntField key st2)
  /\ observe (incrementIntField key st1) =
     (Exit 1, (written st1 ++ [LogFatal "could not assert value to int"])%list).
Proof.
  intros H1 H2 Hx Hw.
  assert (E1 : getTyped (person st1) key TInt = (0, false))
    by apply (getTyped_None _ _ TInt H1).
  assert (E2 : getTyped (person st2) key TInt = (0, false))
    by apply (getTyped_mismatch _ _ TInt x H2 Hx).
  split; [exact E1 | split; [exact E2 |]].
  rewrite (incrementIntField_fail st1 key), (incrementIntField_fail st2 key);
    [| rewrite E2; reflexivity | rewrite E1; reflexivity].
  unfold observe, write. simpl. rewrite Hw. split; reflexivity.
Qed.

(** The empty record against [{"age": "21"}]. *)
Lemma failure_causes_indistinguishable_age :
  let st1 := Machine ∅ [] in
  let st2 := Machine {[ "age" := VString "21" ]} [] in
  getTyped (person st1) "age" TInt = (0, false)
  /\ getTyped (person st2) "age" TInt = (0, false)
  /\ observe (incrementIntField "age" st1)
     = observe (incrementIntField "age" st2)
  /\ observe (incrementIntField "age" st1) =
     (Exit 1, (written st1 ++ [LogFatal "could not assert value to int"])%list).
Proof.
  intros st1 st2.
  apply (failure_causes_indistinguishable st1 st2 "age" (VString "21"));
    [reflexivity | reflexivity | discriminate | reflexivity].
Defined.

(** C10. The field update keeps the key set of the record in every outcome:
    either it completes, and then the key held an [int] and the record is
    the old one with that same key rewritten, or it fails, and then the
    record is the old one. The domain after equals the domain before. *)
Theorem incrementIntField_dom (st : machine) (key : string) :
  dom (person (snd (incrementIntField key st))) = dom (person st)
  /\ ((exists n : Z,
         person st !! key = Some (VInt n)
         /\ incrementIntField key st =
            (Ret tt, {| person := set (person st) key (VInt (intAdd n 1));
                        written := written st |}))
      \/ (fst (incrementIntField key st) = Exit 1
          /\ person (snd (incrementIntField key st)) = person st)).
Proof.
  destruct (incrementIntField_cases st key) as [[n [H _]] | [_ F]].
  - rewrite (incrementIntField_ok st key n H). simpl. split.
    + unfold set. rewrite dom_insert_L.
      apply subseteq_union_1_L, singleton_subseteq_l, elem_of_dom.
      exists (VInt n). exact H.
    + left. exists n. split; [exact H | reflexivity].
  - rewrite (incrementIntField_fail st key F). simpl. split.
    + reflexivity.
    + right. split; reflexivity.
Qed.

(** ** Further properties of the field update *)

Section IntArithmetic.

Ltac int_consts :=
  unfold wrapInt, minInt, maxInt, intSize in *;
  change (2 ^ (64 - 1)) with 9223372036854775808 in *;
  change (2 ^ 64) with 18446744073709551616 in *.

Lemma wrapInt_range (x : Z) : minInt <= wrapInt x <= maxInt.
Proof.
  int_consts.
  pose proof (Z.mod_pos_bound (x + 9223372036854775808)
                18446744073709551616 ltac:(lia)).
  lia.
Qed.

Lemma wrapInt_small (x : Z) : minInt <= x <= maxInt -> wrapInt x = x.
Proof.
  int_consts. intros Hx. rewrite Z.mod_small; lia.
Qed.

Lemma wrapInt_add_l (a b : Z) : wrapInt (wrapInt a + b) = wrapInt (a + b).
Proof.
  int_consts. f_equal.
  replace ((a + 9223372036854775808) mod 18446744073709551616
           - 9223372036854775808 + b + 9223372036854775808)
    with ((a + 9223372036854775808) mod 18446744073709551616 + b) by lia.
  rewrite Zplus_mod_idemp_l. f_equal. lia.
Qed.

Lemma intAdd_maxInt : intAdd maxInt 1 = minInt.
Proof. reflexivity. Qed.

End IntArithmetic.

(** X1. On any record whose [key] holds an [int] that is not the greatest
    one, the field update completes and stores exactly the next integer;
    every other key is bound as before and nothing is written out. *)
Theorem incrementIntField_next (st : machine) (key : string) (n : Z) :
  person st !! key = Some (VInt n) ->
  minInt <= n < maxInt ->
  incrementIntField key st =
    (Ret tt, {| person := set (person st) key (VInt (n + 1));
                written := written st |})
  /\ (forall k : string, k <> key ->
        person (snd (incrementIntField key st)) !! k = person st !! k).
Proof.
  intros H Hn. rewrite (incrementIntField_ok st key n H).
  unfold intAdd. rewrite wrapInt_small by lia.
  split; [reflexivity |].
  intros k Hk. simpl. unfold set. apply lookup_insert_ne. congruence.
Qed.

Lemma incrementIntField_next_negative :
  let st := Machine {[ "balance" := VInt (-1); "name" := VString "Bob" ]} [] in
  person st !! "balance" = Some (VInt (-1))
  /\ minInt <= -1 < maxInt
  /\ incrementIntField "balance" st =
       (Ret tt, {| person := set (person st) "balance" (VInt (-1 + 1));
                   written := written st |})
  /\ (forall k : string, k <> "balance" ->
        person (snd (incrementIntField "balance" st)) !! k = person st !! k).
Proof.
  intros st.
  split; [reflexivity |].
  split; [vm_compute; split; [discriminate | reflexivity] |].
  apply (incrementIntField_next st "balance" (-1)).
  - reflexivity.
  - vm_compute. split; [discriminate | reflexivity].
Defined.

(** X2. At the greatest [int] the addition wraps around: the field update
    completes and stores the least [int]. *)
Theorem incrementIntField_overflow (st : machine) (key : string) :
  person st !! key = Some (VInt maxInt) ->
  incrementIntField key st =
    (Ret tt, {| person := set (person st) key (VInt minInt);
                written := written st |}).
Proof.
  intros H. rewrite (incrementIntField_ok st key maxInt H).
  rewrite intAdd_maxInt. reflexivity.
Qed.

Lemma incrementIntField_overflow_age :
  let st := Machine {[ "age" := VInt 9223372036854775807 ]} [] in
  person st !! "age" = Some (VInt maxInt)
  /\ incrementIntField "age" st =
       (Ret tt, {| person := {[ "age" := VInt (-9223372036854775808) ]};
                   written := [] |}).
Proof.
  intros st. split; [reflexivity |].
  exact (incrementIntField_overflow st "age" eq_refl).
Defined.

(** X3. The field update completes exactly when the key holds an [int];
    in every other case (absent key, [nil], a value of another type) the
    process ends with status 1. *)
Theorem incrementIntField_completes_iff (st : machine) (key : string) :
  (fst (incrementIntField key st) = Ret tt
   <-> dynType (index (person st) key) = Some TInt)
  /\ (fst (incrementIntField key st) = Exit 1
      <-> dynType (index (person st) key) <> Some TInt).
Proof.
  destruct (incrementIntField_cases st key) as [[n [H _]] | [Hn F]].
  - rewrite (incrementIntField_ok st key n H), (index_present _ _ _ H).
    simpl. split; split; intros; congruence.
  - rewrite (incrementIntField_fail st key F). simpl.
    assert (D : dynType (index (person st) key) <> Some TInt).
    { unfold index. destruct (person st !! key) as [[ | n | s | f] | ];
        simpl; try congruence. exfalso. apply (Hn n). reflexivity. }
    split; split; intros; congruence.
Qed.

(** X4. Two field updates in a row on a key that holds the [int] [n]
    store [n + 2], wrapped to the range of [int], under that key. *)
Theorem incrementIntField_twice (st : machine) (key : string) (n : Z) :
  person st !! key = Some (VInt n) ->
  (incrementIntField key ;; incrementIntField key) st =
    (Ret tt, {| person := set (person st) key (VInt (wrapInt (n + 2)));
                written := written st |}).
Proof.
  intros H. unfold bind at 1. rewrite (incrementIntField_ok st key n H).
  rewrite (incrementIntField_ok _ key (intAdd n 1)).
  - simpl. unfold set. rewrite insert_insert_eq. unfold intAdd.
    rewrite wrapInt_add_l. replace (n + 1 + 1) with (n + 2) by lia.
    reflexivity.
  - simpl. unfold set. apply lookup_insert_eq.
Qed.

Lemma incrementIntField_twice_alice :
  person (Machine alice []) !! "age" = Some (VInt 21)
  /\ (incrementIntField "age" ;; incrementIntField "age") (Machine alice []) =
       (Ret tt, {| person := set alice "age" (VInt 23); written := [] |}).
Proof.
  split; [reflexivity |].
  exact (incrementIntField_twice (Machine alice []) "age" 21 eq_refl).
Defined.

(** X5. In every outcome the field update leaves the dynamic type of every
    field as it was: the field it rewrites was an [int] and is one again,
    and no other field is touched. *)
Theorem incrementIntField_keeps_types (st : machine) (key k : string) :
  dynType (index (person (snd (incrementIntField key st))) k)
  = dynType (index (person st) k).
Proof.
  destruct (incrementIntField_cases st key) as [[n [H _]] | [_ F]].
  - rewrite (incrementIntField_ok st key n H). simpl.
    unfold index, set. destruct (decide (key = k)) as [<- | Hne].
    + rewrite lookup_insert_eq, H. reflexivity.
    + rewrite lookup_insert_ne by exact Hne. reflexivity.
  - rewrite (incrementIntField_fail st key F). reflexivity.
Qed.

(** X6. If every [int] in the record is within the range of [int] before
    the field update, the same holds after it, in every outcome. *)
Theorem incrementIntField_keeps_range (st : machine) (key : string) :
  intsInRange (person st) ->
  intsInRange (person (snd (incrementIntField key st))).
Proof.
  intros Hr.
  destruct (incrementIntField_cases st key) as [[n [H _]] | [_ F]].
  - rewrite (incrementIntField_ok st key n H). simpl.
    intros k n'. unfold set. destruct (decide (key = k)) as [<- | Hne].
    + rewrite lookup_insert_eq. intros E.
      assert (n' = intAdd n 1) as -> by congruence.
      apply wrapInt_range.
    + rewrite lookup_insert_ne by exact Hne. apply Hr.
  - rewrite (incrementIntField_fail st key F). exact Hr.
Qed.

Lemma alice_intsInRange : intsInRange alice.
Proof.
  intros k n. unfold alice, set, make. rewrite !lookup_insert.
  repeat case_decide; rewrite ?lookup_empty; intros E; try discriminate E.
  injection E as <-. vm_compute. split; discriminate.
Defined.

Lemma incrementIntField_keeps_range_alice :
  intsInRange alice
  /\ intsInRange (person (snd (incrementIntField "age" (Machine alice [])))).
Proof.
  split; [exact alice_intsInRange |].
  exact (incrementIntField_keeps_range (Machine alice []) "age"
           alice_intsInRange).
Defined.

(** X7. A typed read gives [(v, true)] exactly when the key is bound to the
    value [v] of the asserted type. *)
Theorem getTyped_true_iff
    (m : record) (k : string) (T : TypeTag) (v : goType T) :
  getTyped m k T = (v, true) <-> m !! k = Some (box T v).
Proof.
  unfold getTyped, index.
  destruct T, (m !! k) as [[ | n | s | f] | ]; simpl; split; intros E;
    congruence.
Qed.

(** X8. An assignment to one key does not change what a typed read of
    another key gives, whatever the type asserted. *)
Theorem assign_typeAssert_other
    (st : machine) (k k' : string) (x : iface) (T : TypeTag) :
  k <> k' ->
  fst ((assign k' x ;; typeAssert T k) st) = fst (typeAssert T k st).
Proof.
  intros Hne. unfold bind, assign, typeAssert, getTyped, index, set. simpl.
  rewrite lookup_insert_ne by congruence. reflexivity.
Qed.

Lemma assign_typeAssert_other_alice :
  "age" <> "name"
  /\ fst ((assign "name" (VInt 7) ;; typeAssert TInt "age") (Machine alice []))
     = fst (typeAssert TInt "age" (Machine alice [])).
Proof.
  split; [discriminate |].
  apply (assign_typeAssert_other (Machine alice []) "age" "name" (VInt 7) TInt).
  discriminate.
Defined.

(** X9. From any state, both programs complete without the fatal exit, end
    with the record [{name:"Alice", age:22, height:167.64}], and write one
    thing only, the print of that final record: to the logger in
    [07/main.go], to standard output in [05/main.go]. *)
Theorem mains_complete (st : machine) :
  let p : record :=
    {[ "name" := VString "Alice"; "age" := VInt 22;
       "height" := VFloat64 height ]} in
  main07 st = (Ret tt, Machine p (written st ++ [LogPrintf "%+v" p])%list)
  /\ main05 st = (Ret tt, Machine p (written st ++ [FmtPrintf "%+v" p])%list).
Proof.
  intros p.
  assert (E : set alice "age" (VInt 22) = p) by (vm_compute; reflexivity).
  rewrite main07_unfold, main05_unfold. unfold bind.
  rewrite initPerson_alice.
  rewrite (incrementIntField_ok (Machine alice (written st)) "age" 21 eq_refl).
  change (intAdd 21 1) with 22. cbn [person written].
  unfold logPrintf, fmtPrintf, write. cbn [person written]. rewrite E.
  split; reflexivity.
Qed.

Lemma assignAll_app (kvs1 kvs2 : list (string * iface)) (m : record) :
  assignAll (kvs1 ++ kvs2) m = assignAll kvs2 (assignAll kvs1 m).
Proof. unfold assignAll. apply fold_left_app. Qed.

(** X15. After any run of assignments, a typed read of a key gives the
    value of the last assignment to that key, with [ok = true], when asked
    for the type of that value: later assignments to other keys, and
    anything assigned before, do not matter. *)
Theorem assignAll_getTyped
    (before after : list (string * iface)) (m : record)
    (k : string) (T : TypeTag) (v : goType T) :
  k ∉ map fst after ->
  getTyped (assignAll (before ++ (k, box T v) :: after) m) k T = (v, true).
Proof.
  intros Hk. rewrite assignAll_app.
  change (assignAll ((k, box T v) :: after) (assignAll before m))
    with (assignAll after (set (assignAll before m) k (box T v))).
  unfold getTyped, index. rewrite (assignAll_other _ _ _ Hk).
  unfold set. rewrite lookup_insert_eq. apply assertType_box.
Qed.

Lemma assignAll_getTyped_age :
  ("age" ∉ map fst [("height", VFloat64 height)])
  /\ getTyped (assignAll ([("age", VString "21"); ("name", VString "Alice")]
                          ++ ("age", box TInt 21)
                          :: [("height", VFloat64 height)]) make)
       "age" TInt = (21, true).
Proof.
  split.
  - simpl. intros E. apply list_elem_of_singleton in E. discriminate E.
  - apply (assignAll_getTyped
             [("age", VString "21"); ("name", VString "Alice")]
             [("height", VFloat64 height)] make "age" TInt 21).
    simpl. intros E. apply list_elem_of_singleton in E. discriminate E.
Defined.

(** X16. Assignments to two different keys give the same record in either
    order. *)
Theorem assign_commute (st : machine) (k1 k2 : string) (x1 x2 : iface) :
  k1 <> k2 ->
  (assign k1 x1 ;; assign k2 x2) st = (assign k2 x2 ;; assign k1 x1) st.
Proof.
  intros Hne. unfold bind, assign, set. simpl.
  rewrite (insert_insert_ne (person st) k2 k1) by congruence. reflexivity.
Qed.

Lemma assign_commute_alice :
  "name" <> "age"
  /\ (assign "name" (VString "Alice") ;; assign "age" (VInt 21)) start
     = (assign "age" (VInt 21) ;; assign "name" (VString "Alice")) start.
Proof.
  split; [discriminate |].
  apply (assign_commute start "name" "age"). discriminate.
Defined.

(** ** The [Stringer] snippet *)

Module StringersFacts.

Import Stringers.

(** The two lines of the comment that ends [01/main.go]. *)
Example main_logs :
  main [] = ["Book: Alice in Wonderland - Lewis Carrol"; "3"].
Proof. vm_compute. reflexivity. Qed.

Lemma append_cons (c : Ascii.ascii) (s1 s2 : string) :
  String c s1 ++ s2 = String c (s1 ++ s2).
Proof. reflexivity. Qed.

Lemma append_assoc (s1 s2 s3 : string) :
  (s1 ++ s2) ++ s3 = s1 ++ (s2 ++ s3).
Proof.
  induction s1 as [ | c s1 IH]; [reflexivity |].
  rewrite !append_cons, IH. reflexivity.
Qed.

Lemma length_append (s1 s2 : string) :
  String.length (s1 ++ s2) = (String.length s1 + String.length s2)%nat.
Proof.
  induction s1 as [ | c s1 IH]; [reflexivity |].
  rewrite append_cons. simpl. rewrite IH. reflexivity.
Qed.

(** X10. [Count.String] tells counts apart: two counts have the same string
    exactly when they are equal, so [WriteLog] logs the same line for two
    counts only when they are the same count. *)
Theorem Count_String_inj (c1 c2 : Count) (logged : list string) :
  (Count_String c1 = Count_String c2 <-> c1 = c2)
  /\ (WriteLog c1 logged = WriteLog c2 logged <-> c1 = c2).
Proof.
  assert (I : Count_String c1 = Count_String c2 <-> c1 = c2).
  { split; [| intros ->; reflexivity].
    unfold Count_String, Itoa. apply pretty_Z_inj. }
  split; [exact I |].
  split; [| intros ->; reflexivity].
  unfold WriteLog. intros E. apply app_inj_tail in E as [_ E].
  apply I. exact E.
Qed.

(** X11. [Book.String] does not tell books apart: when the separator
    [" - "] is moved from the title to the author, the book is another one
    and its string, hence the line [WriteLog] logs, is the same. *)
Theorem Book_String_ambiguous (t s a : string) (logged : list string) :
  let b1 := {| Title := t ++ " - " ++ s; Author := a |} in
  let b2 := {| Title := t; Author := s ++ " - " ++ a |} in
  b1 <> b2
  /\ Book_String b1 = Book_String b2
  /\ WriteLog b1 logged = WriteLog b2 logged.
Proof.
  intros b1 b2.
  assert (E : Book_String b1 = Book_String b2).
  { unfold Book_String, b1, b2. simpl Title. simpl Author.
    rewrite !append_assoc. reflexivity. }
  split; [| split; [exact E |]].
  - intros Hb. assert (L : String.length (Title b1) = String.length (Title b2))
      by (rewrite Hb; reflexivity).
    unfold b1, b2 in L. simpl Title in L. rewrite !length_append in L.
    simpl in L. lia.
  - unfold WriteLog, stringOf, Book_Stringer. rewrite E. reflexivity.
Qed.

End StringersFacts.

(** ** The sales-rate snippet *)

Module ShopFacts.

Import Shop.

Section Rate.

Context `{World}.

Variable now : Time.
Variable sdb : DB.

(** X12. [calculateSalesRate] returns a nil error exactly when both counts
    come back without error (the customers being counted on the database as
    the sales count left it); no count is rejected, a count of zero customers
    included. Whenever the error is not nil the string is empty. *)
Theorem calculateSalesRate_error_iff :
  let since := Add now (-24 * Hour) in
  let s := CountSales since sdb in
  let c := CountCustomers since (snd s) in
  (snd (fst (calculateSalesRate now sdb)) = None
   <-> snd (fst s) = None /\ snd (fst c) = None)
  /\ (snd (fst (calculateSalesRate now sdb)) <> None ->
      fst (fst (calculateSalesRate now sdb)) = "").
Proof.
  intros since s c. unfold calculateSalesRate. fold since. fold s.
  destruct s as [[sales [e | ]] sdb1] eqn:Es; simpl.
  - split; [split; [discriminate | intros [E _]; discriminate E] |].
    reflexivity.
  - simpl in c. fold c.
    destruct c as [[customers [e | ]] sdb2]; simpl.
    + split; [split; [discriminate | intros [_ E]; discriminate E] |].
      reflexivity.
    + split; [split; [intros _; split; reflexivity | reflexivity] |].
      intros E. congruence.
Qed.

(** X13. When the sales count fails, [calculateSalesRate] returns the empty
    string with that very error, and the customers are not counted: the
    database is as the sales count left it. *)
Theorem calculateSalesRate_sales_error (e : error) :
  snd (fst (CountSales (Add now (-24 * Hour)) sdb)) = Some e ->
  calculateSalesRate now sdb =
    (("", Some e), snd (CountSales (Add now (-24 * Hour)) sdb)).
Proof.
  intros E. unfold calculateSalesRate.
  destruct (CountSales (Add now (-24 * Hour)) sdb) as [[sales err] sdb1].
  simpl in E. subst err. reflexivity.
Qed.

(** X14. When the sales count succeeds and the customers count fails,
    [calculateSalesRate] returns the empty string with the error of the
    customers count, after both queries, the sales first, each asked for the
    rows since 24 hours before [now]. *)
Theorem calculateSalesRate_customers_error (e : error) :
  let since := Add now (-24 * Hour) in
  snd (fst (CountSales since sdb)) = None ->
  snd (fst (CountCustomers since (snd (CountSales since sdb)))) = Some e ->
  calculateSalesRate now sdb =
    (("", Some e), snd (CountCustomers since (snd (CountSales since sdb)))).
Proof.
  intros since E1 E2. unfold calculateSalesRate. fold since.
  destruct (CountSales since sdb) as [[sales err] sdb1].
  simpl in E1, E2 |- *. subst err.
  destruct (CountCustomers since sdb1) as [[customers err] sdb2].
  simpl in E2 |- *. subst err. reflexivity.
Qed.

End Rate.

(** The sales count fails on the double: one query only is asked. *)
Lemma calculateSalesRate_sales_error_double :
  let w := double "SELECT count(*) FROM sales WHERE timestamp > $1" in
  snd (fst (@CountSales w (@Add w 0 (-24 * Hour)) [])) = Some "connection refused"
  /\ @calculateSalesRate w 0 [] =
       (("", Some "connection refused"),
        ["SELECT count(*) FROM sales WHERE timestamp > $1"]).
Proof.
  intros w. split; [reflexivity |].
  exact (@calculateSalesRate_sales_error w 0 [] "connection refused" eq_refl).
Defined.

(** The customers count fails on the double: both queries are asked. *)
Lemma calculateSalesRate_customers_error_double :
  let w := double "SELECT count(*) FROM customers WHERE timestamp > $1" in
  snd (fst (@CountSales w (@Add w 0 (-24 * Hour)) [])) = None
  /\ snd (fst (@CountCustomers w (@Add w 0 (-24 * Hour))
                 (snd (@CountSales w (@Add w 0 (-24 * Hour)) []))))
     = Some "connection refused"
  /\ @calculateSalesRate w 0 [] =
       (("", Some "connection refused"),
        ["SELECT count(*) FROM sales WHERE timestamp > $1";
         "SELECT count(*) FROM customers WHERE timestamp > $1"]).
Proof.
  intros w. split; [reflexivity | split; [reflexivity |]].
  exact (@calculateSalesRate_customers_error w 0 [] "connection refused"
           eq_refl eq_refl).
Defined.

End ShopFacts.
